(** * Elastic IP cleanup handler: a shallow embedding of
      [src/lambda/lambda_function.py] and the properties of its single
      entry point [lambda_handler].

    The handler talks to two collaborators: the EC2 networking API (list
    the VPC addresses, release one of them) and the standard output, which
    the host captures as the log.  Both are effects, so the handler is
    written in a small state-and-exception monad whose state is the remote
    world together with the chronological trace of what the run did. *)

From Stdlib Require Import List String ZArith Lia Bool DecimalString.
From Stdlib Require DecimalPos DecimalZ.
Import ListNotations.
Open Scope string_scope.
Open Scope list_scope.

(** ** Python values *)

Module Py.

(** [str(n)] for a Python [int]. *)
Definition str_int (n : Z) : string := NilZero.string_of_int (Z.to_int n).

(** An instance of (a subclass of) Python's [Exception]: the class name
    and the text [str(e)] gives.  Every failure of an API call is one
    (botocore's errors all derive from [Exception]).  What derives from
    [BaseException] only ([KeyboardInterrupt], [SystemExit]) is not a
    failure of a call but a truncation of the whole process from outside,
    like the host's timeout, and is not part of this model. *)
Record Exception : Type := mkException {
  exc_type : string;
  exc_text : string
}.

(** [str(e)], as the f-string [{e}] formats it. *)
Definition str_exc (e : Exception) : string := exc_text e.

End Py.
Import Py.

(** ** Data model *)

(** One item of [ec2_resource.vpc_addresses.all()], with the three
    attributes the handler reads. *)
Record VpcAddress : Type := mkVpcAddress {
  public_ip : string;
  allocation_id : string;
  instance_id : option string
}.

(** The mapping the handler returns. *)
Record Response : Type := mkResponse {
  statusCode : Z;
  body : string
}.

(** The EC2 client behind [boto3.resource('ec2')], over an arbitrary state
    [World] of the remote service.  [describe_addresses] is the listing call
    that iterating [vpc_addresses.all()] performs; [release_address] is the
    call [VpcAddress.release()] performs, with the allocation identifier of
    its receiver: [None] when it completes, [Some e] when it raises [e]. *)
Record EC2 (World : Type) : Type := mkEC2 {
  describe_addresses : World -> World * (list VpcAddress + Exception);
  release_address : string -> World -> World * option Exception
}.
Arguments describe_addresses {World} _ _.
Arguments release_address {World} _ _ _.

(** ** Effects *)

(** What a run does, in the order it does it: a line printed to the standard
    output, or a call of [release()] on an address together with what the
    call raised. *)
Inductive Event : Type :=
| Stdout (line : string)
| ReleaseCall (elastic_ip : VpcAddress) (raised : option Exception).

Record State (World : Type) : Type := mkState {
  world : World;
  trace : list Event
}.
Arguments mkState {World} _ _.
Arguments world {World} _.
Arguments trace {World} _.

(** A computation either returns a value or raises. *)
Definition M (World A : Type) : Type :=
  State World -> State World * (A + Exception).

Definition ret {World A} (a : A) : M World A := fun s => (s, inl a).

Definition bind {World A B} (m : M World A) (k : A -> M World B) : M World B :=
  fun s =>
    match m s with
    | (s', inl a) => k a s'
    | (s', inr e) => (s', inr e)
    end.

Notation "x <- m ;; k" := (bind m (fun x => k))
  (at level 61, m at next level, right associativity).
Notation "m ;;; k" := (bind m (fun _ => k))
  (at level 61, right associativity).

(** [try: body except Exception as e: handler e]. *)
Definition try_except {World A} (body : M World A)
    (handler : Exception -> M World A) : M World A :=
  fun s =>
    match body s with
    | (s', inl a) => (s', inl a)
    | (s', inr e) => handler e s'
    end.

(** [for x in xs: acc = step x acc], the loop variable [acc] being the local
    the loop body rebinds. *)
Fixpoint for_in {World A B} (xs : list A) (step : A -> B -> M World B)
    (acc : B) : M World B :=
  match xs with
  | [] => ret acc
  | x :: rest => acc' <- step x acc ;; for_in rest step acc'
  end.

(** [print(line)]. *)
Definition print {World} (line : string) : M World unit :=
  fun s => (mkState (world s) (trace s ++ [Stdout line]), inl tt).

(** Iterating [ec2_resource.vpc_addresses.all()]: one listing call, whose
    failure is raised at the [for] statement. *)
Definition vpc_addresses_all {World} (ec2_resource : EC2 World)
  : M World (list VpcAddress) :=
  fun s =>
    let (w', r) := describe_addresses ec2_resource (world s) in
    (mkState w' (trace s), r).

(** [elastic_ip.release()]. *)
Definition release {World} (ec2_resource : EC2 World) (elastic_ip : VpcAddress)
  : M World unit :=
  fun s =>
    let (w', r) := release_address ec2_resource (allocation_id elastic_ip) (world s) in
    (mkState w' (trace s ++ [ReleaseCall elastic_ip r]),
     match r with
     | None => inl tt
     | Some e => inr e
     end).

(** ** The handler *)

(** The two f-strings the handler prints. *)
Definition releasing_line (elastic_ip : VpcAddress) : string :=
  ("Releasing unassociated EIP: " ++ public_ip elastic_ip
     ++ " (" ++ allocation_id elastic_ip ++ ")")%string.

Definition error_line (elastic_ip : VpcAddress) (e : Exception) : string :=
  ("Error releasing EIP " ++ allocation_id elastic_ip ++ ": " ++ str_exc e)%string.

(** The f-string of the returned body. *)
Definition summary (released_count : Z) : string :=
  ("Released " ++ str_int released_count ++ " unassociated EIP(s).")%string.

Section Handler.

Context {World : Type}.

(** The client, taken here as built; [Strict.lambda_handler] below has the
    call [boto3.resource('ec2')] that builds it. *)
Variable ec2_resource : EC2 World.

(** The body of the [for] loop, for one [elastic_ip] and the current value
    of [released_count]; it gives the value of [released_count] after the
    iteration. *)
Definition loop_body (elastic_ip : VpcAddress) (released_count : Z)
  : M World Z :=
  match instance_id elastic_ip with
  | None =>
      try_except
        (print (releasing_line elastic_ip) ;;;
         release ec2_resource elastic_ip ;;;
         ret (released_count + 1)%Z)
        (fun e =>
           print (error_line elastic_ip e) ;;;
           ret released_count)
  | Some _ => ret released_count
  end.

Definition lambda_handler {Ev Ctx : Type} (event : Ev) (context : Ctx)
  : M World Response :=
  let released_count := 0%Z in
  addresses <- vpc_addresses_all ec2_resource ;;
  released_count <- for_in addresses loop_body released_count ;;
  ret {| statusCode := 200; body := summary released_count |}.

End Handler.

(** A run starts with nothing printed and no call made. *)
Definition start {World} (w : World) : State World := mkState w [].

(** ** Reading a trace *)

(** The test of the [if]: the bound-instance identifier is absent. *)
Definition unassociated (elastic_ip : VpcAddress) : bool :=
  match instance_id elastic_ip with
  | None => true
  | Some _ => false
  end.

(** The calls of [release()] in a trace, oldest first: the receiver and what
    the call raised. *)
Definition release_calls (t : list Event)
  : list (VpcAddress * option Exception) :=
  flat_map (fun ev =>
              match ev with
              | ReleaseCall elastic_ip raised => [(elastic_ip, raised)]
              | Stdout _ => []
              end) t.

(** The texts printed in a trace, one per call of [print], oldest first:
    the log. *)
Definition stdout (t : list Event) : list string :=
  flat_map (fun ev =>
              match ev with
              | Stdout line => [line]
              | ReleaseCall _ _ => []
              end) t.

(** A call that completed without raising. *)
Definition completed (call : VpcAddress * option Exception) : bool :=
  match snd call with
  | None => true
  | Some _ => false
  end.

(** The number of calls of [release()] that completed, as a Python [int]. *)
Definition completed_count (calls : list (VpcAddress * option Exception)) : Z :=
  Z.of_nat (List.length (filter completed calls)).

(** What one call of [release()] on an unassociated address leaves in the
    trace. *)
Definition episode (call : VpcAddress * option Exception) : list Event :=
  match snd call with
  | None =>
      [Stdout (releasing_line (fst call)); ReleaseCall (fst call) None]
  | Some e =>
      [Stdout (releasing_line (fst call)); ReleaseCall (fst call) (Some e);
       Stdout (error_line (fst call) e)]
  end.

(** The lines one call leaves in the log. *)
Definition episode_lines (call : VpcAddress * option Exception) : list string :=
  match snd call with
  | None => [releasing_line (fst call)]
  | Some e => [releasing_line (fst call); error_line (fst call) e]
  end.

(** [answers ec2 w calls w']: from the world [w], the API answers the calls
    of [calls], in this order, with the outcomes recorded there, and leaves
    the world [w']. *)
Inductive answers {World} (ec2_resource : EC2 World)
  : World -> list (VpcAddress * option Exception) -> World -> Prop :=
| answers_nil : forall w, answers ec2_resource w [] w
| answers_cons : forall w elastic_ip raised w1 calls w2,
    release_address ec2_resource (allocation_id elastic_ip) w = (w1, raised) ->
    answers ec2_resource w1 calls w2 ->
    answers ec2_resource w ((elastic_ip, raised) :: calls) w2.

(** ** A remote pool to run the handler against *)

(** A simulated remote service: the address pool, the release calls that
    are going to fail (allocation identifier and error, each consumed by the
    call it fails: a transient fault), and whether the listing call is
    down. *)
Record Remote : Type := mkRemote {
  pool : list VpcAddress;
  faults : list (string * Exception);
  outage : option Exception
}.

(** The first fault waiting for [id], and the faults left once it fired. *)
Fixpoint take_fault (id : string) (fs : list (string * Exception))
  : option (Exception * list (string * Exception)) :=
  match fs with
  | [] => None
  | (id', e) :: rest =>
      if String.eqb id' id then Some (e, rest)
      else match take_fault id rest with
           | Some (e', rest') => Some (e', (id', e) :: rest')
           | None => None
           end
  end.

(** The pool without the allocation [id]. *)
Definition deallocate (id : string) (l : list VpcAddress) : list VpcAddress :=
  filter (fun a => negb (String.eqb (allocation_id a) id)) l.

Definition remote_describe (w : Remote) : Remote * (list VpcAddress + Exception) :=
  match outage w with
  | Some e => (w, inr e)
  | None => (w, inl (pool w))
  end.

Definition remote_release (id : string) (w : Remote) : Remote * option Exception :=
  match take_fault id (faults w) with
  | Some (e, rest) => (mkRemote (pool w) rest (outage w), Some e)
  | None => (mkRemote (deallocate id (pool w)) (faults w) (outage w), None)
  end.

Definition remote_ec2 : EC2 Remote := mkEC2 Remote remote_describe remote_release.

(** The allocations of the worked examples. *)
Definition eip_a : VpcAddress := mkVpcAddress "1.2.3.4" "eip-a" (Some "i-1").
Definition eip_b : VpcAddress := mkVpcAddress "5.6.7.8" "eip-b" None.
Definition eip_c : VpcAddress := mkVpcAddress "9.9.9.3" "eip-c" None.
Definition eip_d : VpcAddress := mkVpcAddress "9.9.9.4" "eip-d" None.

Definition denied : Exception :=
  mkException "ClientError" "An error occurred (AuthFailure)".
Definition timed_out : Exception :=
  mkException "ConnectTimeoutError" "Connect timeout on endpoint URL".

(** A run of the handler on the simulated service. *)
Definition run (w : Remote) : State Remote * (Response + Exception) :=
  lambda_handler remote_ec2 tt tt (start w).

(** The pool of the second worked example: the release of [eip-c] fails,
    the release of [eip-d] completes. *)
Definition partial_failure : Remote :=
  mkRemote [eip_c; eip_d] [("eip-c", denied)] None.

(** The pool of the first worked example. *)
Definition one_associated : Remote := mkRemote [eip_a; eip_b] [] None.

(** The listing call is down. *)
Definition listing_down : Remote :=
  mkRemote [eip_c; eip_d] [] (Some timed_out).


(** The client of the simulated service with another listing. *)
Definition listing (addresses : list VpcAddress) : EC2 Remote :=
  mkEC2 Remote (fun w => (w, inl addresses)) remote_release.

(** ** Two sentences of the specification, as they read *)

(** The specification's sentence on the informational record, as it reads:
    for a call of [release()] that raised, the log holds the error record
    exactly once and does not hold the informational record of that
    address. *)
Definition informational_on_success_only (t : list Event) : Prop :=
  forall elastic_ip e,
    In (elastic_ip, Some e) (release_calls t) ->
    count_occ string_dec (stdout t) (error_line elastic_ip e) = 1%nat
    /\ ~ In (releasing_line elastic_ip) (stdout t).


(** ** Reading the log and the remote world *)

(** The two kinds of text the handler passes to [print], told apart by how
    the text starts. *)
Definition starts_as_error (text : string) : bool :=
  String.prefix "Error releasing EIP " text.

Definition starts_as_releasing (text : string) : bool :=
  String.prefix "Releasing unassociated EIP: " text.

(** A call of [release()] that raised. *)
Definition raised_call (call : VpcAddress * option Exception) : bool :=
  negb (completed call).

(** The remote world after the release call was made for each of
    [addresses], in order, whatever each call answered. *)
Definition after_releases {World} (ec2_resource : EC2 World)
    (addresses : list VpcAddress) (w : World) : World :=
  fold_left (fun w0 a => fst (release_address ec2_resource (allocation_id a) w0))
            addresses w.

(** A pool with nothing to release, and one where every release is denied. *)
Definition eip_e : VpcAddress := mkVpcAddress "1.2.3.5" "eip-e" (Some "i-2").
Definition all_associated : Remote := mkRemote [eip_a; eip_e] [] None.
Definition all_denied : Remote :=
  mkRemote [eip_c; eip_d] [("eip-c", denied); ("eip-d", timed_out)] None.

(** ** The handler with its client and with the classes of what is raised *)

(** The embedding above takes the client as given and has every failure an
    instance of [Exception].  The module below embeds the same handler with
    the two things that leaves out: the client is built inside the handler
    ([boto3.resource('ec2')], outside any [try]), and a call can raise what
    derives from [BaseException] only, which [except Exception] does not
    catch. *)
Module Strict.

(** What a call raises: an instance of a class deriving from [Exception], or
    an instance of a class deriving from [BaseException] only
    ([KeyboardInterrupt], [SystemExit], [GeneratorExit]), with its class
    name and text. *)
Inductive Raised : Type :=
| Failure (e : Exception)
| Signal (class_name : string) (text : string).

(** [isinstance(r, Exception)]. *)
Definition isinstance_Exception (r : Raised) : bool :=
  match r with
  | Failure _ => true
  | Signal _ _ => false
  end.

(** The client [boto3.resource('ec2')] gives, and [boto3] itself:
    [resource name] builds the client of the service [name], or raises. *)
Record EC2 (World : Type) : Type := mkEC2 {
  describe_addresses : World -> World * (list VpcAddress + Raised);
  release_address : string -> World -> World * option Raised
}.
Arguments describe_addresses {World} _ _.
Arguments release_address {World} _ _ _.

Record Boto3 (World : Type) : Type := mkBoto3 {
  resource : string -> World -> World * (EC2 World + Raised)
}.
Arguments resource {World} _ _ _.

Inductive Event : Type :=
| Stdout (line : string)
| ReleaseCall (elastic_ip : VpcAddress) (raised : option Raised).

Record State (World : Type) : Type := mkState {
  world : World;
  trace : list Event
}.
Arguments mkState {World} _ _.
Arguments world {World} _.
Arguments trace {World} _.

Definition M (World A : Type) : Type :=
  State World -> State World * (A + Raised).

Definition ret {World A} (a : A) : M World A := fun s => (s, inl a).

Definition bind {World A B} (m : M World A) (k : A -> M World B) : M World B :=
  fun s =>
    match m s with
    | (s', inl a) => k a s'
    | (s', inr r) => (s', inr r)
    end.

(** [try: body except Exception as e: handler e]: what does not derive from
    [Exception] goes through. *)
Definition try_except_Exception {World A} (body : M World A)
    (handler : Exception -> M World A) : M World A :=
  fun s =>
    match body s with
    | (s', inl a) => (s', inl a)
    | (s', inr (Failure e)) => handler e s'
    | (s', inr (Signal class_name text)) => (s', inr (Signal class_name text))
    end.

Fixpoint for_in {World A B} (xs : list A) (step : A -> B -> M World B)
    (acc : B) : M World B :=
  match xs with
  | [] => ret acc
  | x :: rest => bind (step x acc) (fun acc' => for_in rest step acc')
  end.

Definition print {World} (line : string) : M World unit :=
  fun s => (mkState (world s) (trace s ++ [Stdout line]), inl tt).

(** [boto3.resource(name)]. *)
Definition boto3_resource {World} (boto3 : Boto3 World) (name : string)
  : M World (EC2 World) :=
  fun s =>
    let (w', r) := resource boto3 name (world s) in
    (mkState w' (trace s), r).

Definition vpc_addresses_all {World} (ec2_resource : EC2 World)
  : M World (list VpcAddress) :=
  fun s =>
    let (w', r) := describe_addresses ec2_resource (world s) in
    (mkState w' (trace s), r).

Definition release {World} (ec2_resource : EC2 World) (elastic_ip : VpcAddress)
  : M World unit :=
  fun s =>
    let (w', r) := release_address ec2_resource (allocation_id elastic_ip) (world s) in
    (mkState w' (trace s ++ [ReleaseCall elastic_ip r]),
     match r with
     | None => inl tt
     | Some x => inr x
     end).

Definition loop_body {World} (ec2_resource : EC2 World)
    (elastic_ip : VpcAddress) (released_count : Z) : M World Z :=
  match instance_id elastic_ip with
  | None =>
      try_except_Exception
        (bind (print (releasing_line elastic_ip)) (fun _ =>
         bind (release ec2_resource elastic_ip) (fun _ =>
         ret (released_count + 1)%Z)))
        (fun e =>
           bind (print (error_line elastic_ip e)) (fun _ =>
           ret released_count))
  | Some _ => ret released_count
  end.

Definition lambda_handler {World} (boto3 : Boto3 World)
    {Ev Ctx : Type} (event : Ev) (context : Ctx) : M World Response :=
  bind (boto3_resource boto3 "ec2") (fun ec2_resource =>
  let released_count := 0%Z in
  bind (vpc_addresses_all ec2_resource) (fun addresses =>
  bind (for_in addresses (loop_body ec2_resource) released_count)
       (fun released_count =>
  ret {| statusCode := 200; body := summary released_count |}))).

Definition start {World} (w : World) : State World := mkState w [].

(** Reading a trace. *)
Definition release_calls (t : list Event) : list (VpcAddress * option Raised) :=
  flat_map (fun ev =>
              match ev with
              | ReleaseCall elastic_ip raised => [(elastic_ip, raised)]
              | Stdout _ => []
              end) t.

Definition stdout (t : list Event) : list string :=
  flat_map (fun ev =>
              match ev with
              | Stdout line => [line]
              | ReleaseCall _ _ => []
              end) t.

(** A call that completed. *)
Definition completed (call : VpcAddress * option Raised) : bool :=
  match snd call with
  | None => true
  | Some _ => false
  end.

(** A call that completed or whose failure [except Exception] caught. *)
Definition survived (call : VpcAddress * option Raised) : bool :=
  match snd call with
  | Some (Signal _ _) => false
  | _ => true
  end.

(** What one call of [release()] leaves in the trace. *)
Definition episode (call : VpcAddress * option Raised) : list Event :=
  match snd call with
  | Some (Failure e) =>
      [Stdout (releasing_line (fst call)); ReleaseCall (fst call) (snd call);
       Stdout (error_line (fst call) e)]
  | _ =>
      [Stdout (releasing_line (fst call)); ReleaseCall (fst call) (snd call)]
  end.

(** A client and a [boto3] without state: the listing is [addresses], and
    the release of an allocation raises what [faults] has for its
    identifier, if anything. *)
Fixpoint fault_of (id : string) (faults : list (string * Raised)) : option Raised :=
  match faults with
  | [] => None
  | (id', r) :: rest => if String.eqb id' id then Some r else fault_of id rest
  end.

Definition fixed_ec2 (addresses : list VpcAddress)
    (faults : list (string * Raised)) : EC2 unit :=
  mkEC2 unit (fun w => (w, inl addresses)) (fun id w => (w, fault_of id faults)).

Definition fixed_boto3 (addresses : list VpcAddress)
    (faults : list (string * Raised)) : Boto3 unit :=
  mkBoto3 unit (fun _ w => (w, inl (fixed_ec2 addresses faults))).

(** No region is configured: the client cannot be built. *)
Definition no_region : Raised :=
  Failure (mkException "NoRegionError" "You must specify a region.").

Definition unconfigured_boto3 : Boto3 unit :=
  mkBoto3 unit (fun _ w => (w, inr no_region)).

Definition interrupt : Raised := Signal "KeyboardInterrupt" "".

End Strict.

(** The first embedding inside the second: a client that is built, and
    whose calls raise instances of [Exception] only. *)
Definition lift_result {A : Type} (r : A + Exception) : A + Strict.Raised :=
  match r with
  | inl a => inl a
  | inr e => inr (Strict.Failure e)
  end.

Definition lift_event (ev : Event) : Strict.Event :=
  match ev with
  | Stdout line => Strict.Stdout line
  | ReleaseCall elastic_ip raised =>
      Strict.ReleaseCall elastic_ip (option_map Strict.Failure raised)
  end.

Definition lift_state {World : Type} (s : State World) : Strict.State World :=
  Strict.mkState (world s) (map lift_event (trace s)).

Definition lift_client {World : Type} (ec2_resource : EC2 World) : Strict.EC2 World :=
  Strict.mkEC2 World
    (fun w => let (w', r) := describe_addresses ec2_resource w in (w', lift_result r))
    (fun id w =>
       let (w', r) := release_address ec2_resource id w in
       (w', option_map Strict.Failure r)).

Definition lift_boto3 {World : Type} (ec2_resource : EC2 World) : Strict.Boto3 World :=
  Strict.mkBoto3 World (fun _ w => (w, inl (lift_client ec2_resource))).

(** The two unassociated addresses of the worked example, the release of
    [eip-c] interrupted, or denied. *)
Definition interrupted_boto3 : Strict.Boto3 unit :=
  Strict.fixed_boto3 [eip_c; eip_d] [("eip-c", Strict.interrupt)].

Definition denied_boto3 : Strict.Boto3 unit :=
  Strict.fixed_boto3 [eip_c; eip_d] [("eip-c", Strict.Failure denied)].

(** The sentence of the specification on a failing release, as it reads, of
    one run over the listing [addresses]: whatever a call of [release()]
    raised, the record naming the allocation identifier and the failure
    detail is in the log, every unassociated address of the listing gets its
    call, and the run returns with status 200. *)
Definition every_release_failure_is_isolated {World : Type}
    (addresses : list VpcAddress)
    (run : Strict.State World * (Response + Strict.Raised)) : Prop :=
  forall k elastic_ip x,
    nth_error (Strict.release_calls (Strict.trace (fst run))) k
    = Some (elastic_ip, Some x) ->
    (exists detail,
        In ("Error releasing EIP " ++ allocation_id elastic_ip ++ ": " ++ detail)%string
           (Strict.stdout (Strict.trace (fst run))))
    /\ map fst (Strict.release_calls (Strict.trace (fst run)))
       = filter unassociated addresses
    /\ exists resp, snd run = inl resp /\ statusCode resp = 200%Z.

(** ** The loop *)

Lemma release_calls_episodes (calls : list (VpcAddress * option Exception)) :
  release_calls (flat_map episode calls) = calls.
Proof.
  induction calls as [|[a [e|]] calls IH]; simpl; [reflexivity| |];
    unfold release_calls in *; simpl; now rewrite IH.
Qed.

Lemma stdout_episodes (calls : list (VpcAddress * option Exception)) :
  stdout (flat_map episode calls) = flat_map episode_lines calls.
Proof.
  induction calls as [|[a [e|]] calls IH]; simpl; [reflexivity| |];
    unfold stdout in *; simpl; now rewrite IH.
Qed.

Section Loop.

Context {World : Type}.
Variable ec2_resource : EC2 World.

(** An associated address: the iteration does nothing at all. *)
Lemma loop_body_associated (elastic_ip : VpcAddress) (n : Z) (s : State World) :
  unassociated elastic_ip = false ->
  loop_body ec2_resource elastic_ip n s = (s, inl n).
Proof.
  unfold unassociated, loop_body.
  destruct (instance_id elastic_ip); [reflexivity | discriminate].
Qed.

(** An unassociated address: one episode, and the counter moves exactly when
    the call completed. *)
Lemma loop_body_unassociated (elastic_ip : VpcAddress) (n : Z) (s : State World)
    (w1 : World) (raised : option Exception) :
  unassociated elastic_ip = true ->
  release_address ec2_resource (allocation_id elastic_ip) (world s) = (w1, raised) ->
  loop_body ec2_resource elastic_ip n s
  = (mkState w1 (trace s ++ episode (elastic_ip, raised)),
     inl (if completed (elastic_ip, raised) then n + 1 else n)%Z).
Proof.
  unfold unassociated, loop_body. intros Hu Hr.
  destruct (instance_id elastic_ip); [discriminate|].
  unfold try_except, bind, print, release, ret; simpl. rewrite Hr.
  destruct raised as [e|]; simpl; rewrite <- !app_assoc; reflexivity.
Qed.

(** The whole loop: it never raises; it calls [release()] on the unassociated
    addresses, in order, once each; the trace grows by one episode per call;
    the counter grows by the number of calls that completed. *)
Lemma for_in_loop_body (addresses : list VpcAddress) :
  forall (n : Z) (s : State World),
  exists s' calls,
    for_in addresses (loop_body ec2_resource) n s
    = (s', inl (n + completed_count calls)%Z)
    /\ map fst calls = filter unassociated addresses
    /\ trace s' = trace s ++ flat_map episode calls
    /\ answers ec2_resource (world s) calls (world s').
Proof.
  induction addresses as [|a rest IH]; intros n s.
  - exists s, []. unfold completed_count; simpl.
    rewrite Z.add_0_r, app_nil_r. repeat split. constructor.
  - simpl. unfold bind at 1.
    destruct (unassociated a) eqn:Hu.
    + destruct (release_address ec2_resource (allocation_id a) (world s))
        as [w1 raised] eqn:Hr.
      rewrite (loop_body_unassociated a n s w1 raised Hu Hr).
      destruct (IH (if completed (a, raised) then n + 1 else n)%Z
                   (mkState w1 (trace s ++ episode (a, raised))))
        as (s' & calls & Hrun & Hmap & Htr & Hans).
      exists s', ((a, raised) :: calls). repeat split.
      * rewrite Hrun. do 2 f_equal. unfold completed_count. simpl.
        destruct (completed (a, raised)); simpl List.length; lia.
      * simpl. now rewrite Hmap.
      * rewrite Htr. simpl. now rewrite <- app_assoc.
      * econstructor; eauto.
    + rewrite (loop_body_associated a n s Hu).
      destruct (IH n s) as (s' & calls & Hrun & Hmap & Htr & Hans).
      exists s', calls. repeat split; assumption.
Qed.

(** The handler, once the listing call has answered. *)
Lemma lambda_handler_run {Ev Ctx : Type} (event : Ev) (context : Ctx)
    (s : State World) (w1 : World) (addresses : list VpcAddress) :
  describe_addresses ec2_resource (world s) = (w1, inl addresses) ->
  exists s' calls,
    lambda_handler ec2_resource event context s
    = (s', inl {| statusCode := 200; body := summary (completed_count calls) |})
    /\ map fst calls = filter unassociated addresses
    /\ trace s' = trace s ++ flat_map episode calls
    /\ answers ec2_resource w1 calls (world s').
Proof.
  intros Hd.
  destruct (for_in_loop_body addresses 0%Z (mkState w1 (trace s)))
    as (s' & calls & Hrun & Hmap & Htr & Hans).
  exists s', calls. repeat split; try assumption.
  unfold lambda_handler, bind, vpc_addresses_all. rewrite Hd.
  rewrite Hrun. reflexivity.
Qed.

(** The listing call failed: nothing is caught, nothing else happens. *)
Lemma lambda_handler_listing_failed {Ev Ctx : Type} (event : Ev) (context : Ctx)
    (s : State World) (w1 : World) (e : Exception) :
  describe_addresses ec2_resource (world s) = (w1, inr e) ->
  lambda_handler ec2_resource event context s = (mkState w1 (trace s), inr e).
Proof.
  intros Hd. unfold lambda_handler, bind, vpc_addresses_all.
  rewrite Hd. reflexivity.
Qed.

(** A run from [start], read back from its own trace. *)
Lemma lambda_handler_from_start {Ev Ctx : Type} (event : Ev) (context : Ctx)
    (w w1 : World) (addresses : list VpcAddress) :
  describe_addresses ec2_resource w = (w1, inl addresses) ->
  exists s',
    lambda_handler ec2_resource event context (start w)
    = (s', inl {| statusCode := 200;
                  body := summary (completed_count (release_calls (trace s'))) |})
    /\ map fst (release_calls (trace s')) = filter unassociated addresses
    /\ trace s' = flat_map episode (release_calls (trace s'))
    /\ answers ec2_resource w1 (release_calls (trace s')) (world s').
Proof.
  intros Hd.
  destruct (lambda_handler_run event context (start w) w1 addresses Hd)
    as (s' & calls & Hrun & Hmap & Htr & Hans).
  simpl in Htr.
  assert (Hc : release_calls (trace s') = calls)
    by (rewrite Htr; apply release_calls_episodes).
  exists s'. rewrite Hc. repeat split; assumption.
Qed.

End Loop.

(** ** The worked examples *)

(** One associated and one unassociated address: one call, for [eip-b]. *)
Example worked_example_one_release :
  map fst (release_calls (trace (fst (run one_associated)))) = [eip_b]
  /\ snd (run one_associated)
     = inl {| statusCode := 200%Z; body := "Released 1 unassociated EIP(s)." |}.
Proof. split; reflexivity. Qed.

(** The release of [eip-c] fails, the release of [eip-d] completes. *)
Example worked_example_partial_failure :
  trace (fst (run partial_failure))
  = [Stdout "Releasing unassociated EIP: 9.9.9.3 (eip-c)";
     ReleaseCall eip_c (Some denied);
     Stdout "Error releasing EIP eip-c: An error occurred (AuthFailure)";
     Stdout "Releasing unassociated EIP: 9.9.9.4 (eip-d)";
     ReleaseCall eip_d None]
  /\ snd (run partial_failure)
     = inl {| statusCode := 200%Z; body := "Released 1 unassociated EIP(s)." |}.
Proof. split; reflexivity. Qed.

(** ** Properties of the handler *)

(** C1. Whatever the addresses listed and whatever each call of [release()]
    does, the handler returns a body whose count is the number of calls of
    [release()] that completed without raising, which the trace of the run
    records; calls that raised are attempted but not counted. *)
Theorem returned_count_is_completed_releases {World : Type} (ec2_resource : EC2 World)
    {Ev Ctx : Type} (event : Ev) (context : Ctx)
    (w w1 : World) (addresses : list VpcAddress) :
  describe_addresses ec2_resource w = (w1, inl addresses) ->
  exists s' resp,
    lambda_handler ec2_resource event context (start w) = (s', inl resp)
    /\ body resp
       = summary (Z.of_nat (List.length (filter completed (release_calls (trace s'))))).
Proof.
  intros Hd.
  destruct (lambda_handler_from_start ec2_resource event context w w1 addresses Hd)
    as (s' & Hrun & _).
  eexists s', _. split; [exact Hrun | reflexivity].
Qed.

(** Two calls attempted, one completed: the body counts one. *)
Lemma returned_count_is_completed_releases_witness :
  describe_addresses remote_ec2 partial_failure
  = (partial_failure, inl [eip_c; eip_d])
  /\ (exists s' resp,
        lambda_handler remote_ec2 tt tt (start partial_failure) = (s', inl resp)
        /\ body resp
           = summary (Z.of_nat (List.length (filter completed (release_calls (trace s'))))))
  /\ List.length (release_calls (trace (fst (run partial_failure)))) = 2%nat
  /\ snd (run partial_failure)
     = inl {| statusCode := 200; body := "Released 1 unassociated EIP(s)." |}.
Proof.
  split; [reflexivity|]. split; [|split; reflexivity].
  apply (returned_count_is_completed_releases
           remote_ec2 tt tt partial_failure partial_failure [eip_c; eip_d]).
  reflexivity.
Defined.

(** C3. Whatever the addresses listed and whichever calls of [release()]
    fail, the handler returns a mapping whose [statusCode] is the integer 200
    and whose [body] is [Released N unassociated EIP(s).] for a non-negative
    integer [N]. *)
Theorem always_status_200 {World : Type} (ec2_resource : EC2 World)
    {Ev Ctx : Type} (event : Ev) (context : Ctx)
    (w w1 : World) (addresses : list VpcAddress) :
  describe_addresses ec2_resource w = (w1, inl addresses) ->
  exists s' N,
    (0 <= N)%Z
    /\ lambda_handler ec2_resource event context (start w)
       = (s', inl {| statusCode := 200%Z;
                     body := ("Released " ++ str_int N
                              ++ " unassociated EIP(s).")%string |}).
Proof.
  intros Hd.
  destruct (lambda_handler_from_start ec2_resource event context w w1 addresses Hd)
    as (s' & Hrun & _).
  exists s', (completed_count (release_calls (trace s'))). split.
  - unfold completed_count. lia.
  - exact Hrun.
Qed.

Lemma always_status_200_witness :
  describe_addresses remote_ec2 partial_failure
  = (partial_failure, inl [eip_c; eip_d])
  /\ exists s' N,
       (0 <= N)%Z
       /\ lambda_handler remote_ec2 tt tt (start partial_failure)
          = (s', inl {| statusCode := 200%Z;
                        body := ("Released " ++ str_int N
                                 ++ " unassociated EIP(s).")%string |}).
Proof.
  split; [reflexivity|].
  apply (always_status_200
           remote_ec2 tt tt partial_failure partial_failure [eip_c; eip_d]).
  reflexivity.
Defined.

(** C4. An address whose [instance_id] is present is never the receiver of a
    call of [release()] at any point of the run, whatever the run's end. *)
Theorem associated_never_released {World : Type} (ec2_resource : EC2 World)
    {Ev Ctx : Type} (event : Ev) (context : Ctx)
    (w : World) (elastic_ip : VpcAddress) :
  instance_id elastic_ip <> None ->
  ~ In elastic_ip
      (map fst (release_calls
                  (trace (fst (lambda_handler ec2_resource event context (start w)))))).
Proof.
  intros Hpresent Hin.
  destruct (describe_addresses ec2_resource w) as [w1 [addresses|e]] eqn:Hd.
  - destruct (lambda_handler_from_start ec2_resource event context w w1 addresses Hd)
      as (s' & Hrun & Hmap & _).
    rewrite Hrun in Hin. simpl in Hin. rewrite Hmap in Hin.
    apply filter_In in Hin. destruct Hin as [_ Hu].
    unfold unassociated in Hu.
    destruct (instance_id elastic_ip); [discriminate | now apply Hpresent].
  - rewrite (lambda_handler_listing_failed ec2_resource event context
               (start w) w1 e Hd) in Hin.
    exact Hin.
Qed.

Lemma associated_never_released_witness :
  instance_id eip_a <> None
  /\ ~ In eip_a
       (map fst (release_calls
                   (trace (fst (lambda_handler remote_ec2 tt tt (start one_associated)))))).
Proof.
  split; [discriminate|].
  apply (associated_never_released remote_ec2 tt tt one_associated eip_a).
  discriminate.
Defined.

(** C7. When the listing call returns no address, the handler calls
    [release()] on nothing, prints nothing, and returns exactly status 200
    with the body [Released 0 unassociated EIP(s).]. *)
Theorem empty_listing {World : Type} (ec2_resource : EC2 World)
    {Ev Ctx : Type} (event : Ev) (context : Ctx) (w w1 : World) :
  describe_addresses ec2_resource w = (w1, inl []) ->
  lambda_handler ec2_resource event context (start w)
  = (mkState w1 [],
     inl {| statusCode := 200%Z; body := "Released 0 unassociated EIP(s)." |})
  /\ release_calls
       (trace (fst (lambda_handler ec2_resource event context (start w)))) = [].
Proof.
  intros Hd.
  assert (Hrun : lambda_handler ec2_resource event context (start w)
                 = (mkState w1 [],
                    inl {| statusCode := 200%Z;
                           body := "Released 0 unassociated EIP(s)." |})).
  { unfold lambda_handler, bind, vpc_addresses_all, start; simpl.
    rewrite Hd. reflexivity. }
  split; [exact Hrun | now rewrite Hrun].
Qed.

Lemma empty_listing_witness :
  describe_addresses remote_ec2 (mkRemote [] [] None)
  = (mkRemote [] [] None, inl [])
  /\ lambda_handler remote_ec2 tt tt (start (mkRemote [] [] None))
     = (mkState (mkRemote [] [] None) [],
        inl {| statusCode := 200%Z; body := "Released 0 unassociated EIP(s)." |})
  /\ release_calls
       (trace (fst (lambda_handler remote_ec2 tt tt (start (mkRemote [] [] None)))))
     = [].
Proof.
  split; [reflexivity|].
  apply (empty_listing remote_ec2 tt tt (mkRemote [] [] None) (mkRemote [] [] None)).
  reflexivity.
Defined.

(** C9. When the listing call fails, nothing in the handler catches the
    failure: the invocation ends by raising that same failure, returns no
    mapping, and has called [release()] on nothing and printed nothing. *)
Theorem listing_failure_propagates {World : Type} (ec2_resource : EC2 World)
    {Ev Ctx : Type} (event : Ev) (context : Ctx) (w w1 : World) (e : Exception) :
  describe_addresses ec2_resource w = (w1, inr e) ->
  lambda_handler ec2_resource event context (start w) = (mkState w1 [], inr e)
  /\ (forall resp,
        snd (lambda_handler ec2_resource event context (start w)) <> inl resp).
Proof.
  intros Hd.
  pose proof (lambda_handler_listing_failed ec2_resource event context
                (start w) w1 e Hd) as Hrun.
  simpl in Hrun. split; [exact Hrun|].
  intros resp. rewrite Hrun. discriminate.
Qed.

Lemma listing_failure_propagates_witness :
  describe_addresses remote_ec2 listing_down = (listing_down, inr timed_out)
  /\ lambda_handler remote_ec2 tt tt (start listing_down)
     = (mkState listing_down [], inr timed_out)
  /\ (forall resp,
        snd (lambda_handler remote_ec2 tt tt (start listing_down)) <> inl resp).
Proof.
  split; [reflexivity|].
  apply (listing_failure_propagates remote_ec2 tt tt listing_down listing_down timed_out).
  reflexivity.
Defined.

(** Unique allocation identifiers stay unique among the unassociated
    addresses. *)
Lemma unassociated_ids_unique (addresses : list VpcAddress) :
  NoDup (map allocation_id addresses) ->
  NoDup (map allocation_id (filter unassociated addresses)).
Proof.
  induction addresses as [|a rest IH]; simpl; intros Hunique.
  - constructor.
  - apply NoDup_cons_iff in Hunique. destruct Hunique as [Hfresh Hrest].
    destruct (unassociated a); simpl; [|now apply IH].
    constructor; [|now apply IH].
    contradict Hfresh.
    apply in_map_iff in Hfresh. destruct Hfresh as (b & Hid & Hb).
    apply filter_In in Hb. rewrite <- Hid. apply in_map. tauto.
Qed.

(** C5. The calls of [release()] of a run are, in order, the unassociated
    addresses of the listing, one call per address: none is skipped and none
    is called twice.  With allocation identifiers unique in the listing, the
    identifier of each unassociated address is passed to exactly one call. *)
Theorem each_unassociated_released_once {World : Type} (ec2_resource : EC2 World)
    {Ev Ctx : Type} (event : Ev) (context : Ctx)
    (w w1 : World) (addresses : list VpcAddress) :
  describe_addresses ec2_resource w = (w1, inl addresses) ->
  map fst (release_calls
             (trace (fst (lambda_handler ec2_resource event context (start w)))))
  = filter unassociated addresses
  /\ (NoDup (map allocation_id addresses) ->
      forall elastic_ip,
        In elastic_ip addresses ->
        instance_id elastic_ip = None ->
        count_occ string_dec
          (map (fun call => allocation_id (fst call))
               (release_calls
                  (trace (fst (lambda_handler ec2_resource event context (start w))))))
          (allocation_id elastic_ip) = 1%nat).
Proof.
  intros Hd.
  destruct (lambda_handler_from_start ec2_resource event context w w1 addresses Hd)
    as (s' & Hrun & Hmap & _).
  rewrite Hrun; simpl. split; [exact Hmap|].
  intros Hnd a Hin Hnone.
  rewrite <- (map_map fst allocation_id), Hmap.
  apply (proj1 (NoDup_count_occ' string_dec _)).
  - now apply unassociated_ids_unique.
  - apply in_map, filter_In. split; [exact Hin|].
    unfold unassociated. now rewrite Hnone.
Qed.

Lemma each_unassociated_released_once_witness :
  describe_addresses remote_ec2 partial_failure
  = (partial_failure, inl [eip_c; eip_d])
  /\ NoDup (map allocation_id [eip_c; eip_d])
  /\ In eip_d [eip_c; eip_d]
  /\ instance_id eip_d = None
  /\ map fst (release_calls
                (trace (fst (lambda_handler remote_ec2 tt tt (start partial_failure)))))
     = filter unassociated [eip_c; eip_d]
  /\ count_occ string_dec
       (map (fun call => allocation_id (fst call))
            (release_calls
               (trace (fst (lambda_handler remote_ec2 tt tt (start partial_failure))))))
       (allocation_id eip_d) = 1%nat.
Proof.
  assert (Hd : describe_addresses remote_ec2 partial_failure
               = (partial_failure, inl [eip_c; eip_d])) by reflexivity.
  assert (Hnd : NoDup (map allocation_id [eip_c; eip_d])).
  { simpl. repeat constructor; simpl; intuition discriminate. }
  assert (Hin : In eip_d [eip_c; eip_d]) by (simpl; auto).
  destruct (each_unassociated_released_once
              remote_ec2 tt tt partial_failure partial_failure [eip_c; eip_d] Hd)
    as [Hcalls Hone].
  split; [exact Hd|]. split; [exact Hnd|]. split; [exact Hin|].
  split; [reflexivity|]. split; [exact Hcalls|].
  exact (Hone Hnd eip_d Hin eq_refl).
Defined.

Lemma nth_error_map_inv {A B : Type} (f : A -> B) (l : list A) (j : nat) (b : B) :
  nth_error (map f l) j = Some b ->
  exists a, nth_error l j = Some a /\ f a = b.
Proof.
  rewrite nth_error_map. destruct (nth_error l j) as [a|]; simpl; [|discriminate].
  intros [= <-]. now exists a.
Qed.

(** The loop over a listing is the loop over its unassociated addresses. *)
Lemma for_in_unassociated_only {World : Type} (ec2_resource : EC2 World)
    (addresses : list VpcAddress) :
  forall (n : Z) (s : State World),
    for_in addresses (loop_body ec2_resource) n s
    = for_in (filter unassociated addresses) (loop_body ec2_resource) n s.
Proof.
  induction addresses as [|a rest IH]; intros n s; simpl; [reflexivity|].
  destruct (unassociated a) eqn:Hu; simpl; unfold bind.
  - destruct (loop_body ec2_resource a n s) as [s1 [n1|e]]; [apply IH | reflexivity].
  - rewrite (loop_body_associated ec2_resource a n s Hu). apply IH.
Qed.

(** The loop sees the client through its release call only. *)
Lemma for_in_same_release {World : Type} (ec2_resource ec2_resource' : EC2 World)
    (addresses : list VpcAddress) :
  (forall id w,
      release_address ec2_resource id w = release_address ec2_resource' id w) ->
  forall (n : Z) (s : State World),
    for_in addresses (loop_body ec2_resource) n s
    = for_in addresses (loop_body ec2_resource') n s.
Proof.
  intros Hsame.
  induction addresses as [|a rest IH]; intros n s; simpl; [reflexivity|].
  unfold bind.
  assert (Hbody : loop_body ec2_resource a n s = loop_body ec2_resource' a n s).
  { unfold loop_body. destruct (instance_id a); [reflexivity|].
    unfold try_except, bind, print, release, ret; simpl.
    now rewrite Hsame. }
  rewrite Hbody.
  destruct (loop_body ec2_resource' a n s) as [s1 [n1|e]]; [apply IH | reflexivity].
Qed.

(** C10. An address whose [instance_id] is present leaves the state of the
    run (remote world, calls made, lines printed) and the counter exactly as
    they were.  Hence two runs whose listings have the same unassociated
    addresses in the same order, against the same release behaviour, end in
    the same state with the same result: the returned count and every record
    of the log depend on the unassociated addresses and their release
    outcomes only. *)
Theorem associated_addresses_are_framed {World : Type}
    (ec2_resource ec2_resource' : EC2 World)
    {Ev Ctx : Type} (event : Ev) (context : Ctx) :
  (forall elastic_ip n s,
      instance_id elastic_ip <> None ->
      loop_body ec2_resource elastic_ip n s = (s, inl n))
  /\ (forall w w1 addresses addresses',
        (forall id w0,
            release_address ec2_resource id w0 = release_address ec2_resource' id w0) ->
        describe_addresses ec2_resource w = (w1, inl addresses) ->
        describe_addresses ec2_resource' w = (w1, inl addresses') ->
        filter unassociated addresses = filter unassociated addresses' ->
        lambda_handler ec2_resource event context (start w)
        = lambda_handler ec2_resource' event context (start w)).
Proof.
  split.
  - intros a n s Hpresent. apply loop_body_associated.
    unfold unassociated. destruct (instance_id a); [reflexivity | now elim Hpresent].
  - intros w w1 addresses addresses' Hsame Hd Hd' Hfilter.
    unfold lambda_handler, bind, vpc_addresses_all; simpl.
    rewrite Hd, Hd'.
    rewrite (for_in_unassociated_only ec2_resource addresses),
            (for_in_unassociated_only ec2_resource' addresses'),
            Hfilter.
    now rewrite (for_in_same_release ec2_resource ec2_resource' _ Hsame).
Qed.

Lemma associated_addresses_are_framed_witness :
  instance_id eip_a <> None
  /\ loop_body remote_ec2 eip_a 7%Z (start partial_failure)
     = (start partial_failure, inl 7%Z)
  /\ lambda_handler (listing [eip_a; eip_c; eip_a; eip_d]) tt tt (start partial_failure)
     = lambda_handler (listing [eip_c; eip_d; eip_a]) tt tt (start partial_failure).
Proof.
  destruct (associated_addresses_are_framed
              (listing [eip_a; eip_c; eip_a; eip_d]) (listing [eip_c; eip_d; eip_a])
              tt tt) as [_ Hruns].
  destruct (associated_addresses_are_framed remote_ec2 remote_ec2 tt tt)
    as [Hstep _].
  assert (Hpresent : instance_id eip_a <> None) by discriminate.
  split; [exact Hpresent|]. split.
  - exact (Hstep eip_a 7%Z (start partial_failure) Hpresent).
  - apply (Hruns partial_failure partial_failure
                 [eip_a; eip_c; eip_a; eip_d] [eip_c; eip_d; eip_a]);
      reflexivity.
Defined.

(** C2, as stated, fails on the worked example itself: the release of
    [eip-c] raises, and the log still holds the informational record of
    [eip-c], printed before the call. *)
Lemma informational_record_despite_failure :
  release_calls (trace (fst (run partial_failure)))
  = [(eip_c, Some denied); (eip_d, None)]
  /\ stdout (trace (fst (run partial_failure)))
     = ["Releasing unassociated EIP: 9.9.9.3 (eip-c)";
        "Error releasing EIP eip-c: An error occurred (AuthFailure)";
        "Releasing unassociated EIP: 9.9.9.4 (eip-d)"]
  /\ ~ informational_on_success_only (trace (fst (run partial_failure))).
Proof.
  split; [reflexivity|]. split; [reflexivity|].
  intros Hclaim.
  destruct (Hclaim eip_c denied) as [_ Hnone].
  - vm_compute. left. reflexivity.
  - apply Hnone. vm_compute. left. reflexivity.
Qed.

Lemma episode_unfolded (call : VpcAddress * option Exception) :
  episode call
  = Stdout (releasing_line (fst call))
      :: ReleaseCall (fst call) (snd call)
      :: match snd call with
         | None => []
         | Some e => [Stdout (error_line (fst call) e)]
         end.
Proof. destruct call as [a [e|]]; reflexivity. Qed.

Lemma episode_lines_unfolded (call : VpcAddress * option Exception) :
  episode_lines call
  = releasing_line (fst call)
      :: match snd call with
         | None => []
         | Some e => [error_line (fst call) e]
         end.
Proof. destruct call as [a [e|]]; reflexivity. Qed.

(** C2, amended.  The informational record naming the public address and
    the allocation identifier is printed once for every unassociated
    address, immediately before its call of [release()], whether the call
    then completes or raises; when it raises, the error record follows the
    call, once.  So the trace of a run is, per call, the informational record,
    the call, and the error record if the call raised, and the log is, per
    call, the informational record followed by the error record if the call
    raised. *)
Theorem informational_record_precedes_release {World : Type} (ec2_resource : EC2 World)
    {Ev Ctx : Type} (event : Ev) (context : Ctx)
    (w w1 : World) (addresses : list VpcAddress) :
  describe_addresses ec2_resource w = (w1, inl addresses) ->
  let t := trace (fst (lambda_handler ec2_resource event context (start w))) in
  map fst (release_calls t) = filter unassociated addresses
  /\ t = flat_map
           (fun call =>
              Stdout (releasing_line (fst call))
                :: ReleaseCall (fst call) (snd call)
                :: match snd call with
                   | None => []
                   | Some e => [Stdout (error_line (fst call) e)]
                   end)
           (release_calls t)
  /\ stdout t
     = flat_map
         (fun call =>
            releasing_line (fst call)
              :: match snd call with
                 | None => []
                 | Some e => [error_line (fst call) e]
                 end)
         (release_calls t).
Proof.
  intros Hd.
  destruct (lambda_handler_from_start ec2_resource event context w w1 addresses Hd)
    as (s' & Hrun & Hmap & Htr & _).
  rewrite Hrun; simpl. split; [exact Hmap|]. split.
  - rewrite Htr at 1. apply flat_map_ext. intros call. apply episode_unfolded.
  - rewrite Htr at 1. rewrite stdout_episodes.
    apply flat_map_ext. intros call. apply episode_lines_unfolded.
Qed.

Lemma informational_record_precedes_release_witness :
  describe_addresses remote_ec2 partial_failure
  = (partial_failure, inl [eip_c; eip_d])
  /\ let t := trace (fst (lambda_handler remote_ec2 tt tt (start partial_failure))) in
     map fst (release_calls t) = filter unassociated [eip_c; eip_d]
     /\ t = flat_map
              (fun call =>
                 Stdout (releasing_line (fst call))
                   :: ReleaseCall (fst call) (snd call)
                   :: match snd call with
                      | None => []
                      | Some e => [Stdout (error_line (fst call) e)]
                      end)
              (release_calls t)
     /\ stdout t
        = flat_map
            (fun call =>
               releasing_line (fst call)
                 :: match snd call with
                    | None => []
                    | Some e => [error_line (fst call) e]
                    end)
            (release_calls t).
Proof.
  split; [reflexivity|].
  apply (informational_record_precedes_release
           remote_ec2 tt tt partial_failure partial_failure [eip_c; eip_d]).
  reflexivity.
Defined.



Section Rerun.

Context {World : Type}.
Variable ec2_resource : EC2 World.

(** The address pool behind a state of the remote service, and what the
    specification says the two operations do to it: listing reads it,
    a release that completes deallocates the allocation it was given, a
    release that raises leaves it as it is.  Nothing else touches it. *)
Variable pool_of : World -> list VpcAddress.

Hypothesis listing_reads_pool :
  forall w w' l,
    describe_addresses ec2_resource w = (w', inl l) ->
    l = pool_of w /\ pool_of w' = pool_of w.

Hypothesis completed_release_deallocates :
  forall id w w',
    release_address ec2_resource id w = (w', None) ->
    pool_of w' = deallocate id (pool_of w).

Hypothesis failed_release_keeps_pool :
  forall id w w' e,
    release_address ec2_resource id w = (w', Some e) ->
    pool_of w' = pool_of w.



End Rerun.





(** ** Further properties of the handler *)

Lemma completed_or_raised (calls : list (VpcAddress * option Exception)) :
  (List.length (filter completed calls) + List.length (filter raised_call calls)
   = List.length calls)%nat.
Proof.
  induction calls as [|c calls IH]; simpl; [reflexivity|].
  unfold raised_call at 1. destruct (completed c); simpl; lia.
Qed.

Lemma calls_as_many_as_unassociated
    (calls : list (VpcAddress * option Exception)) (addresses : list VpcAddress) :
  map fst calls = filter unassociated addresses ->
  List.length calls = List.length (filter unassociated addresses)
  /\ (List.length calls <= List.length addresses)%nat.
Proof.
  intros Hmap. rewrite <- Hmap, length_map. split; [reflexivity|].
  rewrite <- (length_map fst), Hmap. apply filter_length_le.
Qed.

(** X1. Every unassociated address of the listing is accounted for: the
    returned count plus the number of calls of [release()] that raised is
    the number of unassociated addresses, so the count lies between 0 and
    the size of the listing. *)
Theorem count_plus_failures_is_unassociated {World : Type} (ec2_resource : EC2 World)
    {Ev Ctx : Type} (event : Ev) (context : Ctx)
    (w w1 : World) (addresses : list VpcAddress) :
  describe_addresses ec2_resource w = (w1, inl addresses) ->
  exists s' N,
    lambda_handler ec2_resource event context (start w)
    = (s', inl {| statusCode := 200%Z; body := summary N |})
    /\ (N + Z.of_nat (List.length (filter raised_call (release_calls (trace s'))))
        = Z.of_nat (List.length (filter unassociated addresses)))%Z
    /\ (0 <= N <= Z.of_nat (List.length addresses))%Z.
Proof.
  intros Hd.
  destruct (lambda_handler_from_start ec2_resource event context w w1 addresses Hd)
    as (s' & Hrun & Hmap & _).
  exists s', (completed_count (release_calls (trace s'))).
  split; [exact Hrun|].
  destruct (calls_as_many_as_unassociated _ _ Hmap) as [Hlen Hle].
  pose proof (completed_or_raised (release_calls (trace s'))) as Hsum.
  unfold completed_count. lia.
Qed.

Lemma count_plus_failures_is_unassociated_witness :
  describe_addresses remote_ec2 partial_failure
  = (partial_failure, inl [eip_c; eip_d])
  /\ exists s' N,
       lambda_handler remote_ec2 tt tt (start partial_failure)
       = (s', inl {| statusCode := 200%Z; body := summary N |})
       /\ (N + Z.of_nat (List.length (filter raised_call (release_calls (trace s'))))
           = Z.of_nat (List.length (filter unassociated [eip_c; eip_d])))%Z
       /\ (0 <= N <= Z.of_nat (List.length [eip_c; eip_d]))%Z.
Proof.
  split; [reflexivity|].
  apply (count_plus_failures_is_unassociated
           remote_ec2 tt tt partial_failure partial_failure [eip_c; eip_d]).
  reflexivity.
Defined.

Lemma no_unassociated (addresses : list VpcAddress) :
  (forall a, In a addresses -> instance_id a <> None) ->
  filter unassociated addresses = [].
Proof.
  induction addresses as [|a rest IH]; simpl; intros Hall; [reflexivity|].
  unfold unassociated at 1.
  destruct (instance_id a) eqn:Hi.
  - apply IH. intros b Hb. apply Hall. now right.
  - exfalso. apply (Hall a); [now left | exact Hi].
Qed.

(** X2. When every address of the listing has an [instance_id], however
    many there are, the run is a no-op after the listing call: nothing is
    printed, [release()] is called on nothing, the remote world is as the
    listing call left it, and the result is status 200 with the count 0. *)
Theorem nothing_unassociated_nothing_done {World : Type} (ec2_resource : EC2 World)
    {Ev Ctx : Type} (event : Ev) (context : Ctx)
    (w w1 : World) (addresses : list VpcAddress) :
  describe_addresses ec2_resource w = (w1, inl addresses) ->
  (forall a, In a addresses -> instance_id a <> None) ->
  lambda_handler ec2_resource event context (start w)
  = (mkState w1 [],
     inl {| statusCode := 200%Z; body := "Released 0 unassociated EIP(s)." |}).
Proof.
  intros Hd Hall.
  destruct (lambda_handler_from_start ec2_resource event context w w1 addresses Hd)
    as (s' & Hrun & Hmap & Htr & Hans).
  rewrite (no_unassociated addresses Hall) in Hmap.
  apply map_eq_nil in Hmap. rewrite Hmap in *.
  inversion Hans as [w0 Hw Hw'|]; subst.
  rewrite Hrun. destruct s' as [w' t]; simpl in *. subst. reflexivity.
Qed.

Lemma nothing_unassociated_nothing_done_witness :
  describe_addresses remote_ec2 all_associated = (all_associated, inl [eip_a; eip_e])
  /\ (forall a, In a [eip_a; eip_e] -> instance_id a <> None)
  /\ lambda_handler remote_ec2 tt tt (start all_associated)
     = (mkState all_associated [],
        inl {| statusCode := 200%Z; body := "Released 0 unassociated EIP(s)." |}).
Proof.
  assert (Hall : forall a, In a [eip_a; eip_e] -> instance_id a <> None).
  { intros a [<-|[<-|[]]]; discriminate. }
  split; [reflexivity|]. split; [exact Hall|].
  apply (nothing_unassociated_nothing_done
           remote_ec2 tt tt all_associated all_associated [eip_a; eip_e]).
  - reflexivity.
  - exact Hall.
Defined.

Lemma filter_keeps_all {A : Type} (f : A -> bool) (l : list A) :
  List.length (filter f l) = List.length l <-> forall x, In x l -> f x = true.
Proof.
  induction l as [|x l IH]; simpl.
  - split; [intros _ ? [] | reflexivity].
  - pose proof (filter_length_le f l) as Hle.
    destruct (f x) eqn:Hx; simpl.
    + split.
      * intros Hlen y [<-|Hy]; [exact Hx|]. apply IH; [lia | exact Hy].
      * intros Hall. f_equal. apply IH. intros y Hy. apply Hall. now right.
    + split; [lia|]. intros Hall. rewrite (Hall x) in Hx; [discriminate | now left].
Qed.

Lemma filter_keeps_none {A : Type} (f : A -> bool) (l : list A) :
  List.length (filter f l) = 0%nat <-> forall x, In x l -> f x = false.
Proof.
  induction l as [|x l IH]; simpl.
  - split; [intros _ ? [] | reflexivity].
  - destruct (f x) eqn:Hx; simpl.
    + split; [discriminate|]. intros Hall.
      rewrite (Hall x) in Hx; [discriminate | now left].
    + rewrite IH. split.
      * intros Hall y [<-|Hy]; [exact Hx | now apply Hall].
      * intros Hall y Hy. apply Hall. now right.
Qed.

(** X3. The two ends of the count.  The returned count is the number of
    unassociated addresses exactly when no call of [release()] raised, and
    it is 0 exactly when every call of [release()] raised (in particular
    when there was none to make). *)
Theorem count_extremes {World : Type} (ec2_resource : EC2 World)
    {Ev Ctx : Type} (event : Ev) (context : Ctx)
    (w w1 : World) (addresses : list VpcAddress) :
  describe_addresses ec2_resource w = (w1, inl addresses) ->
  exists s' N,
    lambda_handler ec2_resource event context (start w)
    = (s', inl {| statusCode := 200%Z; body := summary N |})
    /\ (N = Z.of_nat (List.length (filter unassociated addresses))
        <-> forall call, In call (release_calls (trace s')) -> snd call = None)
    /\ (N = 0%Z
        <-> forall call, In call (release_calls (trace s')) -> snd call <> None).
Proof.
  intros Hd.
  destruct (lambda_handler_from_start ec2_resource event context w w1 addresses Hd)
    as (s' & Hrun & Hmap & _).
  exists s', (completed_count (release_calls (trace s'))).
  split; [exact Hrun|].
  destruct (calls_as_many_as_unassociated _ _ Hmap) as [Hlen _].
  unfold completed_count. rewrite <- Hlen. split.
  - rewrite Nat2Z.inj_iff, filter_keeps_all.
    split; intros Hall call Hin; specialize (Hall call Hin);
      unfold completed in *; destruct (snd call); congruence.
  - change 0%Z with (Z.of_nat 0). rewrite Nat2Z.inj_iff, filter_keeps_none.
    split; intros Hall call Hin; specialize (Hall call Hin);
      unfold completed in *; destruct (snd call); congruence.
Qed.

Lemma count_extremes_witness :
  describe_addresses remote_ec2 all_denied = (all_denied, inl [eip_c; eip_d])
  /\ exists s' N,
       lambda_handler remote_ec2 tt tt (start all_denied)
       = (s', inl {| statusCode := 200%Z; body := summary N |})
       /\ (N = Z.of_nat (List.length (filter unassociated [eip_c; eip_d]))
           <-> forall call, In call (release_calls (trace s')) -> snd call = None)
       /\ (N = 0%Z
           <-> forall call, In call (release_calls (trace s')) -> snd call <> None).
Proof.
  split; [reflexivity|].
  apply (count_extremes remote_ec2 tt tt all_denied all_denied [eip_c; eip_d]).
  reflexivity.
Defined.

Lemma prefix_nil (s : string) : String.prefix "" s = true.
Proof. destruct s; reflexivity. Qed.

Lemma releasing_line_kind (a : VpcAddress) :
  starts_as_releasing (releasing_line a) = true
  /\ starts_as_error (releasing_line a) = false.
Proof.
  unfold starts_as_releasing, starts_as_error, releasing_line. split.
  - simpl. apply prefix_nil.
  - reflexivity.
Qed.

Lemma error_line_kind (a : VpcAddress) (e : Exception) :
  starts_as_releasing (error_line a e) = false
  /\ starts_as_error (error_line a e) = true.
Proof.
  unfold starts_as_releasing, starts_as_error, error_line. split.
  - reflexivity.
  - simpl. apply prefix_nil.
Qed.

Lemma texts_of_episode (call : VpcAddress * option Exception) :
  List.length (filter starts_as_releasing (episode_lines call)) = 1%nat
  /\ List.length (filter starts_as_error (episode_lines call))
     = (if raised_call call then 1%nat else 0%nat)
  /\ forall text, In text (episode_lines call) ->
                  starts_as_releasing text = negb (starts_as_error text).
Proof.
  destruct call as [a [e|]]; unfold episode_lines, raised_call, completed; simpl;
    destruct (releasing_line_kind a) as [Hrr Hre];
    try destruct (error_line_kind a e) as [Her Hee];
    rewrite ?Hrr, ?Hre, ?Her, ?Hee; simpl; rewrite ?Hrr, ?Hre, ?Her, ?Hee;
    (split; [reflexivity|]); (split; [reflexivity|]).
  - intros line [<-|[<-|[]]]; rewrite ?Hrr, ?Hre, ?Her, ?Hee; reflexivity.
  - intros line [<-|[]]; rewrite ?Hrr, ?Hre; reflexivity.
Qed.

(** X4. The texts the handler passes to [print] are of two kinds, told
    apart by how they start.  The calls of [print] whose text starts with
    [Releasing unassociated EIP: ] are as many as the calls of [release()]
    attempted; those whose text starts with [Error releasing EIP ] are as
    many as the calls of [release()] that raised; every text printed is of
    exactly one of the two kinds.  (One text is one call of [print], of as
    many lines as the text has.) *)
Theorem printed_texts_by_kind {World : Type} (ec2_resource : EC2 World)
    {Ev Ctx : Type} (event : Ev) (context : Ctx)
    (w w1 : World) (addresses : list VpcAddress) :
  describe_addresses ec2_resource w = (w1, inl addresses) ->
  let t := trace (fst (lambda_handler ec2_resource event context (start w))) in
  List.length (filter starts_as_releasing (stdout t)) = List.length (release_calls t)
  /\ List.length (filter starts_as_error (stdout t))
     = List.length (filter raised_call (release_calls t))
  /\ (forall text, In text (stdout t) ->
                   starts_as_releasing text = negb (starts_as_error text)).
Proof.
  intros Hd.
  destruct (lambda_handler_from_start ec2_resource event context w w1 addresses Hd)
    as (s' & Hrun & _ & Htr & _).
  rewrite Hrun; simpl.
  assert (Hlog : stdout (trace s') = flat_map episode_lines (release_calls (trace s')))
    by (rewrite Htr at 1; apply stdout_episodes).
  rewrite Hlog. clear Hlog Htr Hrun.
  induction (release_calls (trace s')) as [|call calls (IHr & IHe & IHk)];
    simpl; [repeat split; intros ? []|].
  destruct (texts_of_episode call) as (Hr & He & Hk).
  rewrite !filter_app, !length_app, Hr, He, IHr, IHe.
  repeat split.
  - destruct (raised_call call); simpl; lia.
  - intros line Hin. apply in_app_or in Hin. destruct Hin; auto.
Qed.

Lemma printed_texts_by_kind_witness :
  describe_addresses remote_ec2 partial_failure
  = (partial_failure, inl [eip_c; eip_d])
  /\ let t := trace (fst (lambda_handler remote_ec2 tt tt (start partial_failure))) in
     List.length (filter starts_as_releasing (stdout t)) = List.length (release_calls t)
     /\ List.length (filter starts_as_error (stdout t))
        = List.length (filter raised_call (release_calls t))
     /\ (forall text, In text (stdout t) ->
                      starts_as_releasing text = negb (starts_as_error text)).
Proof.
  split; [reflexivity|].
  apply (printed_texts_by_kind
           remote_ec2 tt tt partial_failure partial_failure [eip_c; eip_d]).
  reflexivity.
Defined.

Lemma append_same_tail (t : string) :
  forall a b : string, (a ++ t)%string = (b ++ t)%string -> a = b.
Proof.
  assert (Hlen : forall x y : string,
             String.length (x ++ y)%string
             = (String.length x + String.length y)%nat).
  { induction x as [|c x IH]; intros y; simpl; [reflexivity | now rewrite IH]. }
  induction a as [|c a IH]; intros [|d b] Heq; simpl in Heq.
  - reflexivity.
  - apply (f_equal String.length) in Heq. simpl in Heq. rewrite Hlen in Heq. lia.
  - apply (f_equal String.length) in Heq. simpl in Heq. rewrite Hlen in Heq. lia.
  - injection Heq as -> Heq. f_equal. now apply IH.
Qed.

Lemma str_int_injective (n m : Z) : str_int n = str_int m -> n = m.
Proof.
  unfold str_int. intros Heq.
  assert (Hparse : forall z,
             NilZero.int_of_string (NilZero.string_of_int (Z.to_int z))
             = Some (Z.to_int z)).
  { intros z. apply NilZero.isi; destruct z; simpl; try discriminate;
      intros [= Hnil]; now apply (DecimalPos.Unsigned.to_uint_nonnil p). }
  apply DecimalZ.to_int_inj.
  pose proof (Hparse n) as Hn. rewrite Heq, Hparse in Hn. now injection Hn.
Qed.

(** X5. The body tells the count: two bodies the handler can build are
    equal only for the same value of [released_count], so a caller can read
    the count back from the body. *)
Theorem summary_injective (n m : Z) : summary n = summary m -> n = m.
Proof.
  unfold summary. intros Heq. simpl in Heq.
  injection Heq as Heq.
  apply str_int_injective. exact (append_same_tail _ _ _ Heq).
Qed.

Lemma summary_injective_witness : summary 12 = summary 12 /\ 12%Z = 12%Z.
Proof.
  split; [reflexivity|]. apply (summary_injective 12 12). reflexivity.
Defined.

Section RunEffects.

Context {World : Type}.
Variable ec2_resource : EC2 World.

Lemma answers_after_releases (w w' : World)
    (calls : list (VpcAddress * option Exception)) :
  answers ec2_resource w calls w' ->
  w' = after_releases ec2_resource (map fst calls) w.
Proof.
  induction 1 as [w | w a raised w1 calls w2 Hrel _ IH]; simpl; [reflexivity|].
  unfold after_releases in *. simpl. now rewrite Hrel.
Qed.

(** X7. The only changes the handler makes to the remote service are its
    release calls: after a run that listed [addresses], the remote world is
    the one the listing call left, taken through one release call per
    unassociated address, with that address's allocation identifier, in
    listing order. *)
Theorem remote_world_after_run {Ev Ctx : Type} (event : Ev) (context : Ctx)
    (w w1 : World) (addresses : list VpcAddress) :
  describe_addresses ec2_resource w = (w1, inl addresses) ->
  world (fst (lambda_handler ec2_resource event context (start w)))
  = after_releases ec2_resource (filter unassociated addresses) w1.
Proof.
  intros Hd.
  destruct (lambda_handler_from_start ec2_resource event context w w1 addresses Hd)
    as (s' & Hrun & Hmap & _ & Hans).
  rewrite Hrun; simpl. rewrite <- Hmap. now apply answers_after_releases.
Qed.

End RunEffects.

Lemma remote_world_after_run_witness :
  describe_addresses remote_ec2 partial_failure
  = (partial_failure, inl [eip_c; eip_d])
  /\ world (fst (lambda_handler remote_ec2 tt tt (start partial_failure)))
     = after_releases remote_ec2 (filter unassociated [eip_c; eip_d]) partial_failure.
Proof.
  split; [reflexivity|].
  apply (remote_world_after_run
           remote_ec2 tt tt partial_failure partial_failure [eip_c; eip_d]).
  reflexivity.
Defined.

(** ** The handler with its client and the classes of what is raised *)

Lemma strict_release_calls_episodes (calls : list (VpcAddress * option Strict.Raised)) :
  Strict.release_calls (flat_map Strict.episode calls) = calls.
Proof.
  induction calls as [|[a [[e|c t]|]] calls IH]; simpl; [reflexivity| | |];
    unfold Strict.release_calls in *; simpl; now rewrite IH.
Qed.

Section StrictLoop.

Context {World : Type}.
Variable ec2_resource : Strict.EC2 World.

Lemma strict_loop_body_associated (a : VpcAddress) (n : Z) (s : Strict.State World) :
  unassociated a = false ->
  Strict.loop_body ec2_resource a n s = (s, inl n).
Proof.
  unfold unassociated, Strict.loop_body.
  destruct (instance_id a); [reflexivity | discriminate].
Qed.

(** One unassociated address: the call leaves its episode in the trace; the
    counter moves when the call completed; a failure deriving from
    [Exception] is caught; anything else goes through. *)
Lemma strict_loop_body_unassociated (a : VpcAddress) (n : Z) (s : Strict.State World)
    (w1 : World) (raised : option Strict.Raised) :
  unassociated a = true ->
  Strict.release_address ec2_resource (allocation_id a) (Strict.world s) = (w1, raised) ->
  Strict.loop_body ec2_resource a n s
  = (Strict.mkState w1 (Strict.trace s ++ Strict.episode (a, raised)),
     match raised with
     | None => inl (n + 1)%Z
     | Some (Strict.Failure _) => inl n
     | Some (Strict.Signal c t) => inr (Strict.Signal c t)
     end).
Proof.
  unfold unassociated, Strict.loop_body. intros Hu Hr.
  destruct (instance_id a); [discriminate|].
  unfold Strict.try_except_Exception, Strict.bind, Strict.print, Strict.release,
    Strict.ret; simpl. rewrite Hr.
  destruct raised as [[e|c t]|]; simpl; rewrite <- ?app_assoc; reflexivity.
Qed.

(** The loop either goes through the whole listing, or stops at the first
    call of [release()] that raises what does not derive from [Exception];
    either way the calls made are the first unassociated addresses of the
    listing, in order. *)
Lemma strict_for_in_loop_body (addresses : list VpcAddress) :
  forall (n : Z) (s : Strict.State World),
  exists s' calls rest r,
    Strict.for_in addresses (Strict.loop_body ec2_resource) n s = (s', r)
    /\ Strict.trace s' = Strict.trace s ++ flat_map Strict.episode calls
    /\ filter unassociated addresses = map fst calls ++ rest
    /\ ((r = inl (n + Z.of_nat (List.length (filter Strict.completed calls)))%Z
         /\ rest = [] /\ forallb Strict.survived calls = true)
        \/ (exists a c t done,
               r = inr (Strict.Signal c t)
               /\ calls = done ++ [(a, Some (Strict.Signal c t))]
               /\ forallb Strict.survived done = true)).
Proof.
  induction addresses as [|a rest_addresses IH]; intros n s.
  - exists s, [], [], (inl n). simpl. rewrite app_nil_r, Z.add_0_r.
    repeat split. left. repeat split.
  - simpl. unfold Strict.bind at 1.
    destruct (unassociated a) eqn:Hu.
    + destruct (Strict.release_address ec2_resource (allocation_id a) (Strict.world s))
        as [w1 raised] eqn:Hr.
      rewrite (strict_loop_body_unassociated a n s w1 raised Hu Hr).
      destruct raised as [[e|c t]|].
      * destruct (IH n (Strict.mkState w1
                          (Strict.trace s ++ Strict.episode (a, Some (Strict.Failure e)))))
          as (s' & calls & rest & r & Hrun & Htr & Hfilter & Hend).
        exists s', ((a, Some (Strict.Failure e)) :: calls), rest, r.
        split; [exact Hrun|]. split; [rewrite Htr; simpl; now rewrite <- app_assoc|].
        split; [simpl; now rewrite Hfilter|].
        destruct Hend
          as [(Hr' & Hrest & Hall)|(b & c & t & done & Hr' & Hcalls & Hdone)].
        -- left. repeat split; assumption.
        -- right. exists b, c, t, ((a, Some (Strict.Failure e)) :: done).
           split; [exact Hr'|]. split; [now rewrite Hcalls | exact Hdone].
      * exists (Strict.mkState w1
                  (Strict.trace s ++ Strict.episode (a, Some (Strict.Signal c t)))),
               [(a, Some (Strict.Signal c t))],
               (filter unassociated rest_addresses),
               (inr (Strict.Signal c t)).
        simpl. rewrite ?app_nil_r. repeat split.
        right. exists a, c, t, []. repeat split.
      * destruct (IH (n + 1)%Z (Strict.mkState w1
                                  (Strict.trace s ++ Strict.episode (a, None))))
          as (s' & calls & rest & r & Hrun & Htr & Hfilter & Hend).
        exists s', ((a, None) :: calls), rest, r.
        split; [exact Hrun|]. split; [rewrite Htr; simpl; now rewrite <- app_assoc|].
        split; [simpl; now rewrite Hfilter|].
        destruct Hend
          as [(Hr' & Hrest & Hall)|(b & c & t & done & Hr' & Hcalls & Hdone)].
        -- left. repeat split; try assumption.
           rewrite Hr'. f_equal. simpl List.length. lia.
        -- right. exists b, c, t, ((a, None) :: done).
           split; [exact Hr'|]. split; [now rewrite Hcalls | exact Hdone].
    + rewrite (strict_loop_body_associated a n s Hu). apply IH.
Qed.

End StrictLoop.

(** A run of the whole handler, once the client is built and the listing
    call has answered. *)
Lemma strict_lambda_handler_run {World : Type} (boto3 : Strict.Boto3 World)
    {Ev Ctx : Type} (event : Ev) (context : Ctx)
    (w w0 w1 : World) (ec2_resource : Strict.EC2 World)
    (addresses : list VpcAddress) :
  Strict.resource boto3 "ec2" w = (w0, inl ec2_resource) ->
  Strict.describe_addresses ec2_resource w0 = (w1, inl addresses) ->
  exists s' rest,
    Strict.trace s' = flat_map Strict.episode (Strict.release_calls (Strict.trace s'))
    /\ filter unassociated addresses
       = map fst (Strict.release_calls (Strict.trace s')) ++ rest
    /\ ((Strict.lambda_handler boto3 event context (Strict.start w)
         = (s', inl {| statusCode := 200%Z;
                       body := summary
                                 (Z.of_nat
                                    (List.length
                                       (filter Strict.completed
                                          (Strict.release_calls (Strict.trace s'))))) |})
         /\ rest = []
         /\ forallb Strict.survived (Strict.release_calls (Strict.trace s')) = true)
        \/ (exists a c t done,
               Strict.lambda_handler boto3 event context (Strict.start w)
               = (s', inr (Strict.Signal c t))
               /\ Strict.release_calls (Strict.trace s')
                  = done ++ [(a, Some (Strict.Signal c t))]
               /\ forallb Strict.survived done = true)).
Proof.
  intros Hres Hd.
  destruct (strict_for_in_loop_body ec2_resource addresses 0%Z (Strict.mkState w1 []))
    as (s' & calls & rest & r & Hrun & Htr & Hfilter & Hend).
  simpl in Htr.
  assert (Hc : Strict.release_calls (Strict.trace s') = calls)
    by (rewrite Htr; apply strict_release_calls_episodes).
  exists s', rest. rewrite Hc.
  split; [exact Htr|]. split; [exact Hfilter|].
  assert (Hhandler :
            Strict.lambda_handler boto3 event context (Strict.start w)
            = (s', match r with
                   | inl n => inl {| statusCode := 200%Z; body := summary n |}
                   | inr x => inr x
                   end)).
  { unfold Strict.lambda_handler, Strict.bind, Strict.boto3_resource,
      Strict.vpc_addresses_all, Strict.start; simpl.
    rewrite Hres; simpl. rewrite Hd. rewrite Hrun. now destruct r. }
  destruct Hend as [(Hr & Hrest & Hall)|(a & c & t & done & Hr & Hcalls & Hdone)].
  - left. rewrite Hhandler, Hr. repeat split; assumption.
  - right. exists a, c, t, done. rewrite Hhandler, Hr. repeat split; assumption.
Qed.

(** C6, as stated, fails for a failure that does not derive from
    [Exception]: the release of [eip-c] is interrupted, [except Exception]
    does not catch it, no error record is printed, [eip-d] never gets its
    call, and the invocation ends by raising instead of returning. *)
Lemma interrupted_release_aborts_batch :
  Strict.trace
    (fst (Strict.lambda_handler interrupted_boto3 tt tt (Strict.start tt)))
  = [Strict.Stdout "Releasing unassociated EIP: 9.9.9.3 (eip-c)";
     Strict.ReleaseCall eip_c (Some (Strict.Signal "KeyboardInterrupt" ""))]
  /\ snd (Strict.lambda_handler interrupted_boto3 tt tt (Strict.start tt))
     = inr (Strict.Signal "KeyboardInterrupt" "")
  /\ ~ every_release_failure_is_isolated [eip_c; eip_d]
         (Strict.lambda_handler interrupted_boto3 tt tt (Strict.start tt)).
Proof.
  split; [reflexivity|]. split; [reflexivity|].
  intros Hclaim.
  destruct (Hclaim 0%nat eip_c Strict.interrupt eq_refl)
    as (_ & _ & resp & Hreturned & _).
  discriminate Hreturned.
Qed.

(** C6, amended.  If the call of [release()] for the k-th unassociated
    address (counting from 0) raises a failure [e] of a class deriving from
    [Exception], the failure is caught and the record
    [Error releasing EIP <allocation identifier>: <str(e)>] is printed right
    after the call.  If moreover nothing that the calls of [release()] of
    the run raise is of a class outside [Exception], every later
    unassociated address still gets its call and the handler returns with
    status 200. *)
Theorem caught_release_failure_is_isolated {World : Type} (boto3 : Strict.Boto3 World)
    {Ev Ctx : Type} (event : Ev) (context : Ctx)
    (w w0 w1 : World) (ec2_resource : Strict.EC2 World)
    (addresses : list VpcAddress)
    (k : nat) (elastic_ip : VpcAddress) (e : Exception) :
  Strict.resource boto3 "ec2" w = (w0, inl ec2_resource) ->
  Strict.describe_addresses ec2_resource w0 = (w1, inl addresses) ->
  nth_error
    (Strict.release_calls
       (Strict.trace (fst (Strict.lambda_handler boto3 event context (Strict.start w)))))
    k = Some (elastic_ip, Some (Strict.Failure e)) ->
  nth_error (filter unassociated addresses) k = Some elastic_ip
  /\ (exists before after,
        Strict.trace (fst (Strict.lambda_handler boto3 event context (Strict.start w)))
        = before
            ++ [Strict.ReleaseCall elastic_ip (Some (Strict.Failure e));
                Strict.Stdout
                  ("Error releasing EIP " ++ allocation_id elastic_ip
                   ++ ": " ++ exc_text e)%string]
            ++ after)
  /\ ((forall a x,
          In (a, Some x)
             (Strict.release_calls
                (Strict.trace
                   (fst (Strict.lambda_handler boto3 event context (Strict.start w))))) ->
          Strict.isinstance_Exception x = true) ->
      (forall j later,
          (k < j)%nat ->
          nth_error (filter unassociated addresses) j = Some later ->
          exists raised,
            nth_error
              (Strict.release_calls
                 (Strict.trace
                    (fst (Strict.lambda_handler boto3 event context (Strict.start w)))))
              j = Some (later, raised))
      /\ (exists resp,
            snd (Strict.lambda_handler boto3 event context (Strict.start w)) = inl resp
            /\ statusCode resp = 200%Z)).
Proof.
  intros Hres Hd.
  destruct (strict_lambda_handler_run boto3 event context w w0 w1 ec2_resource
              addresses Hres Hd)
    as (s' & rest & Htr & Hfilter & Hend).
  assert (Hfst : fst (Strict.lambda_handler boto3 event context (Strict.start w)) = s').
  { destruct Hend as [(Hrun & _)|(a & c & t & done & Hrun & _)]; now rewrite Hrun. }
  rewrite Hfst. intros Hk.
  split; [|split].
  - rewrite Hfilter, nth_error_app1.
    + now rewrite nth_error_map, Hk.
    + rewrite length_map. apply nth_error_Some. now rewrite Hk.
  - destruct (nth_error_split _ _ Hk) as (l1 & l2 & Hsplit & _).
    rewrite Htr, Hsplit, flat_map_app. simpl.
    exists (flat_map Strict.episode l1 ++ [Strict.Stdout (releasing_line elastic_ip)]),
           (flat_map Strict.episode l2).
    now rewrite <- app_assoc.
  - intros Hall.
    destruct Hend as [(Hrun & Hrest & _)|(a & c & t & done & _ & Hcalls & _)].
    + subst rest. rewrite app_nil_r in Hfilter. split.
      * intros j later _ Hj. rewrite Hfilter in Hj.
        destruct (nth_error_map_inv _ _ _ _ Hj) as ([b raised] & Hnth & Hb).
        simpl in Hb; subst b. now exists raised.
      * rewrite Hrun. eexists. split; reflexivity.
    + assert (Hin : In (a, Some (Strict.Signal c t))
                       (Strict.release_calls (Strict.trace s')))
        by (rewrite Hcalls; apply in_or_app; right; now left).
      specialize (Hall _ _ Hin). discriminate Hall.
Qed.

Lemma caught_release_failure_is_isolated_witness :
  Strict.resource denied_boto3 "ec2" tt
  = (tt, inl (Strict.fixed_ec2 [eip_c; eip_d] [("eip-c", Strict.Failure denied)]))
  /\ Strict.describe_addresses
       (Strict.fixed_ec2 [eip_c; eip_d] [("eip-c", Strict.Failure denied)]) tt
     = (tt, inl [eip_c; eip_d])
  /\ nth_error
       (Strict.release_calls
          (Strict.trace (fst (Strict.lambda_handler denied_boto3 tt tt (Strict.start tt)))))
       0 = Some (eip_c, Some (Strict.Failure denied))
  /\ (forall a x,
         In (a, Some x)
            (Strict.release_calls
               (Strict.trace
                  (fst (Strict.lambda_handler denied_boto3 tt tt (Strict.start tt))))) ->
         Strict.isinstance_Exception x = true)
  /\ nth_error (filter unassociated [eip_c; eip_d]) 0 = Some eip_c
  /\ (exists before after,
        Strict.trace (fst (Strict.lambda_handler denied_boto3 tt tt (Strict.start tt)))
        = before
            ++ [Strict.ReleaseCall eip_c (Some (Strict.Failure denied));
                Strict.Stdout
                  "Error releasing EIP eip-c: An error occurred (AuthFailure)"]
            ++ after)
  /\ (forall j later,
         (0 < j)%nat ->
         nth_error (filter unassociated [eip_c; eip_d]) j = Some later ->
         exists raised,
           nth_error
             (Strict.release_calls
                (Strict.trace
                   (fst (Strict.lambda_handler denied_boto3 tt tt (Strict.start tt)))))
             j = Some (later, raised))
  /\ (exists resp,
        snd (Strict.lambda_handler denied_boto3 tt tt (Strict.start tt)) = inl resp
        /\ statusCode resp = 200%Z).
Proof.
  assert (Hall : forall a x,
             In (a, Some x)
                (Strict.release_calls
                   (Strict.trace
                      (fst (Strict.lambda_handler denied_boto3 tt tt (Strict.start tt))))) ->
             Strict.isinstance_Exception x = true).
  { intros a x [Hin|[Hin|[]]]; inversion Hin; reflexivity. }
  destruct (caught_release_failure_is_isolated
              denied_boto3 tt tt tt tt tt
              (Strict.fixed_ec2 [eip_c; eip_d] [("eip-c", Strict.Failure denied)])
              [eip_c; eip_d] 0 eip_c denied eq_refl eq_refl eq_refl)
    as (Hkth & Hrecord & Hrest).
  destruct (Hrest Hall) as [Hlater Hreturned].
  split; [reflexivity|]. split; [reflexivity|]. split; [reflexivity|].
  split; [exact Hall|]. split; [exact Hkth|]. split; [exact Hrecord|].
  split; [exact Hlater | exact Hreturned].
Defined.

Lemma survived_is_Exception (a : VpcAddress) (x : Strict.Raised)
    (calls : list (VpcAddress * option Strict.Raised)) :
  forallb Strict.survived calls = true ->
  In (a, Some x) calls ->
  Strict.isinstance_Exception x = true.
Proof.
  intros Hall Hin. rewrite forallb_forall in Hall. specialize (Hall _ Hin).
  unfold Strict.survived in Hall. simpl in Hall.
  destruct x; [reflexivity | discriminate].
Qed.

(** X8. What makes the invocation fail.  The handler raises [x] exactly
    when [boto3.resource('ec2')] raises [x], or the client is built and the
    listing call raises [x], or a call of [release()] raises [x] and [x] is
    not an instance of [Exception].  A failure of [release()] that derives
    from [Exception] never makes the invocation fail. *)
Theorem handler_raises_exactly_when {World : Type} (boto3 : Strict.Boto3 World)
    {Ev Ctx : Type} (event : Ev) (context : Ctx) (w : World) (x : Strict.Raised) :
  snd (Strict.lambda_handler boto3 event context (Strict.start w)) = inr x
  <-> (exists w0, Strict.resource boto3 "ec2" w = (w0, inr x))
      \/ (exists w0 ec2_resource w1,
             Strict.resource boto3 "ec2" w = (w0, inl ec2_resource)
             /\ Strict.describe_addresses ec2_resource w0 = (w1, inr x))
      \/ (Strict.isinstance_Exception x = false
          /\ exists elastic_ip,
               In (elastic_ip, Some x)
                  (Strict.release_calls
                     (Strict.trace
                        (fst (Strict.lambda_handler boto3 event context
                                (Strict.start w)))))).
Proof.
  destruct (Strict.resource boto3 "ec2" w) as [w0 [ec2_resource|x0]] eqn:Hres.
  - destruct (Strict.describe_addresses ec2_resource w0) as [w1 [addresses|x0]] eqn:Hd.
    + destruct (strict_lambda_handler_run boto3 event context w w0 w1 ec2_resource
                  addresses Hres Hd)
        as (s' & rest & _ & _ & [(Hrun & _ & Hall)|(a & c & t & done & Hrun & Hcalls & Hdone)]);
        rewrite Hrun; simpl.
      * split; [discriminate|].
        intros [[w2 [=]]|[(w2 & ec2' & w3 & [= <- <-] & Hd')|(Hx & a & Hin)]].
        -- rewrite Hd in Hd'. discriminate Hd'.
        -- rewrite (survived_is_Exception a x _ Hall Hin) in Hx. discriminate Hx.
      * split.
        -- intros [= <-]. right; right. split; [reflexivity|].
           exists a. rewrite Hcalls. apply in_or_app. right. now left.
        -- intros [[w2 [=]]|[(w2 & ec2' & w3 & [= <- <-] & Hd')|(Hx & b & Hin)]].
           ++ rewrite Hd in Hd'. discriminate Hd'.
           ++ rewrite Hcalls in Hin. apply in_app_or in Hin.
              destruct Hin as [Hin|[[= _ <-]|[]]]; [|reflexivity].
              rewrite (survived_is_Exception b x _ Hdone Hin) in Hx. discriminate Hx.
    + assert (Hrun : Strict.lambda_handler boto3 event context (Strict.start w)
                     = (Strict.mkState w1 [], inr x0)).
      { unfold Strict.lambda_handler, Strict.bind, Strict.boto3_resource,
          Strict.vpc_addresses_all, Strict.start; simpl.
        rewrite Hres; simpl. now rewrite Hd. }
      rewrite Hrun; simpl. split.
      * intros [= <-]. right; left. now exists w0, ec2_resource, w1.
      * intros [[w2 [=]]|[(w2 & ec2' & w3 & [= <- <-] & Hd')|(_ & _ & [])]].
        rewrite Hd in Hd'. now injection Hd' as _ <-.
  - assert (Hrun : Strict.lambda_handler boto3 event context (Strict.start w)
                   = (Strict.mkState w0 [], inr x0)).
    { unfold Strict.lambda_handler, Strict.bind, Strict.boto3_resource,
        Strict.start; simpl. now rewrite Hres. }
    rewrite Hrun; simpl. split.
    + intros [= <-]. left. now exists w0.
    + intros [[w2 [= _ <-]]|[(w2 & ec2' & w3 & [=] & _)|(_ & _ & [])]].
      reflexivity.
Qed.

(** An unbuilt client, and an interrupted release. *)
Lemma handler_raises_exactly_when_witness :
  snd (Strict.lambda_handler Strict.unconfigured_boto3 tt tt (Strict.start tt))
  = inr Strict.no_region
  /\ snd (Strict.lambda_handler interrupted_boto3 tt tt (Strict.start tt))
     = inr Strict.interrupt
  /\ snd (Strict.lambda_handler denied_boto3 tt tt (Strict.start tt))
     <> inr (Strict.Failure denied).
Proof.
  split; [|split].
  - apply (handler_raises_exactly_when Strict.unconfigured_boto3 tt tt tt Strict.no_region).
    left. now exists tt.
  - apply (handler_raises_exactly_when interrupted_boto3 tt tt tt Strict.interrupt).
    right; right. split; [reflexivity|]. exists eip_c. simpl. now left.
  - intros Hraised.
    apply (handler_raises_exactly_when denied_boto3 tt tt tt (Strict.Failure denied))
      in Hraised.
    destruct Hraised as [[w0 [=]]|[(w0 & ec2' & w1 & [= <- <-] & [=])|([=] & _)]].
Defined.

(** ** The two embeddings agree *)

Section Agreement.

Context {World : Type}.
Variable ec2_resource : EC2 World.

Lemma loop_body_lifted (a : VpcAddress) (n : Z) (s : State World) :
  Strict.loop_body (lift_client ec2_resource) a n (lift_state s)
  = (lift_state (fst (loop_body ec2_resource a n s)),
     lift_result (snd (loop_body ec2_resource a n s))).
Proof.
  unfold Strict.loop_body, loop_body.
  destruct (instance_id a); [reflexivity|].
  unfold Strict.try_except_Exception, Strict.bind, Strict.print, Strict.release,
    Strict.ret, try_except, bind, print, release, ret, lift_state; simpl.
  destruct (release_address ec2_resource (allocation_id a) (world s))
    as [w' [e|]]; simpl; rewrite !map_app; reflexivity.
Qed.

Lemma for_in_lifted (addresses : list VpcAddress) :
  forall (n : Z) (s : State World),
    Strict.for_in addresses (Strict.loop_body (lift_client ec2_resource)) n
                  (lift_state s)
    = (lift_state (fst (for_in addresses (loop_body ec2_resource) n s)),
       lift_result (snd (for_in addresses (loop_body ec2_resource) n s))).
Proof.
  induction addresses as [|a rest IH]; intros n s; simpl; [reflexivity|].
  unfold Strict.bind, bind. rewrite loop_body_lifted.
  destruct (loop_body ec2_resource a n s) as [s1 [n1|e]]; simpl;
    [apply IH | reflexivity].
Qed.

(** With the client built and every failure an instance of [Exception], the
    handler with its client runs as the handler given its client: the same
    remote world, the same calls and printed texts, the same result. *)
Lemma lambda_handler_lifted {Ev Ctx : Type} (event : Ev) (context : Ctx)
    (s : State World) :
  Strict.lambda_handler (lift_boto3 ec2_resource) event context (lift_state s)
  = (lift_state (fst (lambda_handler ec2_resource event context s)),
     lift_result (snd (lambda_handler ec2_resource event context s))).
Proof.
  unfold Strict.lambda_handler, lambda_handler.
  unfold Strict.bind at 1 2, bind at 1 3, Strict.boto3_resource,
    Strict.vpc_addresses_all, vpc_addresses_all; simpl.
  destruct (describe_addresses ec2_resource (world s)) as [w1 [addresses|e]];
    simpl; [|reflexivity].
  unfold Strict.bind, bind.
  change (Strict.mkState w1 (map lift_event (trace s)))
    with (lift_state (mkState w1 (trace s))).
  rewrite for_in_lifted.
  destruct (for_in addresses (loop_body ec2_resource) 0%Z (mkState w1 (trace s)))
    as [s2 [n|e]]; reflexivity.
Qed.

End Agreement.
